(** * map-example: the selection and colour-scaling logic of [src/App.tsx]

    A shallow embedding of the logic of the [App] component: the
    response handler that fills the sales table and its min/max, the
    colour interpolation, the per-feature style function, the click
    handler that toggles a state in the selection, the two handlers of
    the liveboard panel and the host clean-up of the REST client.

    Numbers.  A JavaScript [number] is an IEEE 754 binary64 value. It is
    modelled by [spec_float] of the Standard Library at precision 53 and
    maximal exponent 1024, with its correctly rounded operations, its
    two zeros, its infinities and its NaN.

    Objects.  [stateSales] is a plain object used as a string-keyed
    table. Its own properties are a [gmap string number]; a write to the
    key [__proto__] stores nothing, and a read of a key that is not an
    own property finds the members of [Object.prototype]. *)

From Stdlib Require Import ZArith Ascii SpecFloat.
From stdpp Require Import gmap strings list fin_maps.

Local Open Scope Z_scope.

(** ** JavaScript numbers *)

Definition prec : Z := 53.
Definition emax : Z := 1024.

Abbreviation number := spec_float.
Abbreviation NaN := S754_nan.
Abbreviation Infinity := (S754_infinity false).
Abbreviation NegInfinity := (S754_infinity true).

(** An integer literal of the source, rounded to the nearest number
    (exactly, below 2^53 in magnitude). *)
Definition lit (z : Z) : number := binary_normalize prec emax z 0 false.

Module Number.

(** [x + y], [x - y], [x * y] and [x / y] *)
Definition add (x y : number) : number := SFadd prec emax x y.
Definition sub (x y : number) : number := SFsub prec emax x y.
Definition mul (x y : number) : number := SFmul prec emax x y.
Definition div (x y : number) : number := SFdiv prec emax x y.

(** [x < y] and [x <= y]; false as soon as one side is NaN. *)
Definition lt (x y : number) : bool := SFltb x y.
Definition le (x y : number) : bool := SFleb x y.

(** [x === y] on numbers: NaN equals nothing and the two zeros are equal. *)
Definition strict_eq (x y : number) : bool := SFeqb x y.

(** ToBoolean on a number: the zeros and NaN are falsy. *)
Definition truthy (x : number) : bool :=
  match x with
  | NaN | S754_zero _ => false
  | S754_infinity _ | S754_finite _ _ _ => true
  end.

(** Neither NaN nor an infinity. *)
Definition is_finite (x : number) : bool :=
  match x with
  | S754_zero _ | S754_finite _ _ _ => true
  | NaN | S754_infinity _ => false
  end.

(** The integer a number is, when it is a finite number without
    fraction. *)
Definition integerValue (x : number) : option Z :=
  match x with
  | S754_zero _ => Some 0
  | S754_finite s m e =>
      if 0 <=? e then Some (cond_Zopp s (Z.pos m) * 2 ^ e)
      else if Z.pos m mod 2 ^ (- e) =? 0
           then Some (cond_Zopp s (Z.pos m / 2 ^ (- e)))
           else None
  | NaN | S754_infinity _ => None
  end.

(** A finite integer within [lo, hi]. *)
Definition integer_in (lo hi : Z) (x : number) : bool :=
  match integerValue x with
  | Some z => (lo <=? z) && (z <=? hi)
  | None => false
  end.

(** A finite integer: neither NaN nor an infinity, and no fraction. *)
Definition is_integer (x : number) : bool :=
  match integerValue x with
  | Some _ => true
  | None => false
  end.

End Number.

Declare Scope number_scope.
Delimit Scope number_scope with num.
Infix "+" := Number.add : number_scope.
Infix "-" := Number.sub : number_scope.
Infix "*" := Number.mul : number_scope.
Infix "/" := Number.div : number_scope.

(** ** The [Math] functions the code calls *)

Module Math.

(** [Math.floor(x)]: a number with a fraction is cut to the integer
    below it, which is below 2^53 in magnitude and so is a number. *)
Definition floor (x : number) : number :=
  match x with
  | S754_finite s m e =>
      if 0 <=? e then x
      else binary_normalize prec emax (cond_Zopp s (Z.pos m) / 2 ^ (- e)) 0 false
  | _ => x
  end.

(** One step of [Math.min]: NaN is absorbing; otherwise the smaller,
    where -0 counts as smaller than +0. *)
Definition min2 (lowest x : number) : number :=
  match lowest, x with
  | NaN, _ | _, NaN => NaN
  | S754_zero false, S754_zero true => x
  | _, _ => if Number.lt x lowest then x else lowest
  end.

(** One step of [Math.max]: NaN is absorbing; otherwise the larger,
    where +0 counts as larger than -0. *)
Definition max2 (highest x : number) : number :=
  match highest, x with
  | NaN, _ | _, NaN => NaN
  | S754_zero true, S754_zero false => x
  | _, _ => if Number.lt highest x then x else highest
  end.

(** [Math.min(...values)]: +Infinity when there is no argument. *)
Definition min (values : list number) : number := foldl min2 Infinity values.

(** [Math.max(...values)]: -Infinity when there is no argument. *)
Definition max (values : list number) : number := foldl max2 NegInfinity values.

End Math.

(** ** Colours

    A [fillColor] is a string in the source: either a literal or the
    template literal [`rgb(${red},${green},${blue})`]. The template is
    kept as its three interpolated numbers. *)

Inductive cssColor : Type :=
  | Literal (s : string)
  | RgbTemplate (red green blue : number).

(** [interpolateColor], App.tsx lines 150-160. *)
Definition interpolateColor (value min max : number) : cssColor :=
  let normalizedValue := ((value - min) / (max - min))%num in
  let red := Math.floor (lit 128 + (lit 255 - lit 128) * normalizedValue)%num in
  let green := Math.floor (lit 64 + (lit 255 - lit 64) * (lit 1 - normalizedValue))%num in
  let blue := Math.floor (lit 26 + (lit 255 - lit 26) * (lit 1 - normalizedValue))%num in
  RgbTemplate red green blue.

(** The three channels of a colour all satisfy [P]; a literal has none. *)
Definition channels (P : number → bool) (c : cssColor) : bool :=
  match c with
  | RgbTemplate red green blue => P red && P green && P blue
  | Literal _ => false
  end.

(** ** Plain objects used as tables

    [stateSales] and [salesData] are plain objects, created by [{}], with
    [Object.prototype] behind them. *)

(** The names of the members of [Object.prototype]. *)
Definition objectPrototypeKeys : list string :=
  [ "constructor"; "hasOwnProperty"; "isPrototypeOf"; "propertyIsEnumerable";
    "toLocaleString"; "toString"; "valueOf"; "__proto__";
    "__defineGetter__"; "__defineSetter__"; "__lookupGetter__"; "__lookupSetter__" ].

(** What a read [table[key]] can give: nothing, a number that was
    stored, or a member of [Object.prototype] (a function, or the
    prototype itself for [__proto__]). *)
Inductive JsValue : Type :=
  | Undefined
  | NumberValue (v : number)
  | PrototypeMember.

(** [table[key] = v] for a number [v]: an own property is written, except
    that the setter behind [__proto__] ignores a number and stores
    nothing. *)
Definition setProp (key : string) (v : number) (table : gmap string number)
    : gmap string number :=
  if bool_decide (key = "__proto__") then table else <[key := v]> table.

(** [table[key]]: the own property when there is one, otherwise what the
    prototype holds under that name. *)
Definition getProp (table : gmap string number) (key : string) : JsValue :=
  match table !! key with
  | Some v => NumberValue v
  | None =>
      if bool_decide (key ∈ objectPrototypeKeys) then PrototypeMember else Undefined
  end.

(** ToBoolean: every object is truthy. *)
Definition truthyValue (x : JsValue) : bool :=
  match x with
  | Undefined => false
  | NumberValue v => Number.truthy v
  | PrototypeMember => true
  end.

(** ToNumber: the members of [Object.prototype] convert to NaN. *)
Definition toNumber (x : JsValue) : number :=
  match x with
  | NumberValue v => v
  | Undefined | PrototypeMember => NaN
  end.

(** ** GeoJSON features

    [feature?.properties?.name || '']: the feature, its properties and the
    name may each be missing, and an empty name is falsy as well. *)

Record Properties : Type := { name : option string }.
Record Feature : Type := { properties : option Properties }.

Definition or_empty (s : option string) : string :=
  match s with
  | Some (String _ _ as n) => n
  | Some EmptyString | None => EmptyString
  end.

(** [feature.properties?.name || ''], line 166. *)
Definition featureName (feature : Feature) : string :=
  or_empty (properties feature ≫= name).

(** [feature?.properties?.name || ''], line 131. *)
Definition optFeatureName (feature : option Feature) : string :=
  or_empty ((feature ≫= properties) ≫= name).

(** ** Component state: the [useState] cells of [App] (lines 23-27)

    [stateSales] holds the own properties of the table. *)

Record AppState : Type := {
  selectedStates : list string;
  stateSales : gmap string number;
  minSales : number;
  maxSales : number;
}.

Definition initialState : AppState :=
  {| selectedStates := []; stateSales := ∅; minSales := lit 0; maxSales := lit 0 |}.

(** ** The metric rows and the [searchData] response handler (lines 103-122) *)

(** A row of [data_rows]: [row[0] as string] and [row[1] as number]. *)
Definition DataRow : Type := string * number.

Record SearchDataContent : Type := { data_rows : list DataRow }.
Record SearchDataResponse : Type := { contents : list SearchDataContent }.

(** The [forEach] body, lines 108-113, on the two local accumulators
    [salesData] and [salesValues]. *)
Definition collectRow (acc : gmap string number * list number) (row : DataRow)
    : gmap string number * list number :=
  let '(salesData, salesValues) := acc in
  let stateName := row.1 in
  let salesValue := row.2 in
  (setProp stateName salesValue salesData, salesValues ++ [salesValue]).

(** The table side of [collectRow] alone. *)
Definition insertRow (salesData : gmap string number) (row : DataRow)
    : gmap string number :=
  setProp row.1 row.2 salesData.

(** Lines 104-118: build the table and the value list, then set the three
    state cells. *)
Definition load (rows : list DataRow) (st : AppState) : AppState :=
  let '(salesData, salesValues) := foldl collectRow (∅, []) rows in
  {| selectedStates := selectedStates st;
     stateSales := salesData;
     minSales := Math.min salesValues;
     maxSales := Math.max salesValues |}.

(** The [.then] callback with its [.catch]: reading [data_rows] of a
    missing [contents[0]] throws, the error is logged and no state cell is
    set. *)
Definition onSearchData (response : SearchDataResponse) (st : AppState) : AppState :=
  match contents response with
  | [] => st
  | content :: _ => load (data_rows content) st
  end.

(** The read side of the table, [stateSales[region]], and the range, in
    the words of the specification. *)
Definition get (st : AppState) (region : string) : JsValue :=
  getProp (stateSales st) region.

Definition range (st : AppState) : number * number :=
  (minSales st, maxSales st).

(** ** [stateStyle], lines 130-147

    The literal [0.7] is the number nearest to 7/10, which is what the
    division of 7 by 10 gives. *)

Record PathOptions : Type := {
  fillColor : cssColor;
  weight : number;
  opacity : number;
  color : string;
  fillOpacity : number;
}.

(** [interpolateColor] only subtracts from its [value], which converts it
    to a number; the conversion is made at the call. *)
Definition stateStyle (st : AppState) (feature : option Feature) : PathOptions :=
  let stateName := optFeatureName feature in
  let salesValue := getProp (stateSales st) stateName in
  let fillColor0 :=
    if truthyValue salesValue
    then interpolateColor (toNumber salesValue) (minSales st) (maxSales st)
    else Literal "#3388ff" in
  let fillColor1 :=
    if bool_decide (stateName ∈ selectedStates st)
    then Literal "#cccccc"
    else fillColor0 in
  {| fillColor := fillColor1;
     weight := lit 2;
     opacity := lit 1;
     color := "white";
     fillOpacity := (lit 7 / lit 10)%num |}.
(** ** The click handler of [onEachState], lines 163-176 *)

(** The updater passed to [setSelectedStates]. *)
Definition toggle (stateName : string) (prevSelectedStates : list string) : list string :=
  if bool_decide (stateName ∈ prevSelectedStates)
  then filter (λ name, name ≠ stateName) prevSelectedStates
  else prevSelectedStates ++ [stateName].

Definition click (feature : Feature) (st : AppState) : AppState :=
  let stateName := featureName feature in
  {| selectedStates := toggle stateName (selectedStates st);
     stateSales := stateSales st;
     minSales := minSales st;
     maxSales := maxSales st |}.

(** A run of clicks, oldest first. *)
Definition clicks (features : list Feature) (st : AppState) : AppState :=
  foldl (λ s f, click f s) st features.

(** A run of toggles on the selection alone, oldest first. *)
Definition toggles (names : list string) (selection : list string) : list string :=
  foldl (λ s n, toggle n s) selection names.

(** Rows whose values are all finite numbers. *)
Definition finiteValues (rows : list DataRow) : Prop :=
  Forall (λ row : DataRow, Number.is_finite row.2 = true) rows.

(** A feature whose [properties.name] is [n]. *)
Definition named (n : string) : Feature :=
  {| properties := Some {| name := Some n |} |}.

(** A feature that carries no name: no [properties], or no [name] in them. *)
Definition nameless (feature : Feature) : Prop :=
  properties feature ≫= name = None.

(** ** The liveboard panel: [showLiveboard] and [hideLiveboard], lines 70-94

    The two handlers act on three things: the selection cell, the
    [style.zIndex] of the panel's [div] behind [ref], and the embed behind
    [embedRef], on which they call [trigger]. *)

Inductive HostEvent : Type := UpdateRuntimeFilters.

(** The one operator the component names. *)
Inductive RuntimeFilterOp : Type := IN.

Record RuntimeFilter : Type := {
  columnName : string;
  operator : RuntimeFilterOp;
  values : list string;
}.

(** A call [trigger(messageType, data)]. *)
Record TriggerCall : Type := {
  messageType : HostEvent;
  data : list RuntimeFilter;
}.

(** How a call completes for the handler that makes it. *)
Inductive Completion : Type := Returns | Throws.

(** The embed object, as far as the component sees it: how a call of its
    [trigger] method completes. What the embed does with the call is its
    own business. *)
Definition Embed : Type := TriggerCall → Completion.

(** What the handlers reach outside the state cells: the z-index of the
    panel ([None] while [ref.current] is null) and the calls made on the
    embed, oldest first. *)
Record Panel : Type := {
  zIndex : option string;
  triggered : list TriggerCall;
}.

(** The panel as rendered, line 202, before any effect ran. *)
Definition renderedPanel : Panel :=
  {| zIndex := Some "9999"; triggered := [] |}.

(** [if (ref.current) { ref.current.style.zIndex = z }] *)
Definition setZIndex (z : string) (p : Panel) : Panel :=
  {| zIndex := match zIndex p with Some _ => Some z | None => None end;
     triggered := triggered p |}.

(** [embedRef.current.trigger(...)]: reading [trigger] of a null
    [embedRef.current] throws before any call is made. *)
Definition callTrigger (embedRef : option Embed) (call : TriggerCall) (p : Panel)
    : Completion * Panel :=
  match embedRef with
  | None => (Throws, p)
  | Some embed =>
      (embed call, {| zIndex := zIndex p; triggered := triggered p ++ [call] |})
  end.

(** The filter both handlers send, on the column 'Store State'. *)
Definition storeStateFilter (states : list string) : TriggerCall :=
  {| messageType := UpdateRuntimeFilters;
     data := [ {| columnName := "Store State"; operator := IN; values := states |} ] |}.

(** [showLiveboard], lines 70-81. *)
Definition showLiveboard (embedRef : option Embed) (st : AppState) (p : Panel)
    : Completion * AppState * Panel :=
  let p1 := setZIndex "99999" p in
  let '(completion, p2) := callTrigger embedRef (storeStateFilter (selectedStates st)) p1 in
  (completion, st, p2).

(** [hideLiveboard], lines 82-94: the selection is reset after the call,
    so only when the call returns. *)
Definition hideLiveboard (embedRef : option Embed) (st : AppState) (p : Panel)
    : Completion * AppState * Panel :=
  let p1 := setZIndex "0" p in
  match callTrigger embedRef (storeStateFilter []) p1 with
  | (Throws, p2) => (Throws, st, p2)
  | (Returns, p2) =>
      (Returns,
       {| selectedStates := [];
          stateSales := stateSales st;
          minSales := minSales st;
          maxSales := maxSales st |},
       p2)
  end.

(** The condition under which 'Explore More' is rendered, line 195; an
    array is always truthy. *)
Definition exploreVisible (st : AppState) : bool :=
  bool_decide (0 < length (selectedStates st))%nat.

(** ** [createClientWithoutAuth], lines 229-239

    The string functions below work on the characters of a Rocq string.
    The patterns the code looks for, [#/], [#] and [/], are ASCII, so
    they are found at the same places as in the JavaScript string. *)

(** [s.slice(n)] for [0 <= n]. *)
Fixpoint sliceFrom (n : nat) (s : string) : string :=
  match n, s with
  | O, _ => s
  | S n', String _ s' => sliceFrom n' s'
  | S _, EmptyString => EmptyString
  end.

(** [s.replace(pattern, replacement)] with a string pattern: only the
    first occurrence is replaced. The replacement is taken literally; the
    code passes the empty string. *)
Fixpoint replace (pattern replacement s : string) : string :=
  if String.prefix pattern s
  then replacement +:+ sliceFrom (String.length pattern) s
  else match s with
       | EmptyString => EmptyString
       | String c s' => String c (replace pattern replacement s')
       end.

(** [s.endsWith(suffix)]: some tail of [s] is [suffix]. *)
Fixpoint endsWith (s suffix : string) : bool :=
  if String.eqb s suffix then true
  else match s with
       | EmptyString => false
       | String _ s' => endsWith s' suffix
       end.

(** [s.slice(0, -1)]: all but the last character. *)
Fixpoint sliceButLast (s : string) : string :=
  match s with
  | EmptyString => EmptyString
  | String _ EmptyString => EmptyString
  | String c s' => String c (sliceButLast s')
  end.

(** The host as it reaches [ServerConfiguration], lines 230-233. *)
Definition cleanHost (host : string) : string :=
  let host1 := replace "#" "" (replace "#/" "" host) in
  if endsWith host1 "/" then sliceButLast host1 else host1.

(** The client, reduced to the base server it is configured with. *)
Record RestApiClient : Type := { baseServer : string }.

Definition createClientWithoutAuth (host : string) : RestApiClient :=
  {| baseServer := cleanHost host |}.

Definition TS_URL : string := "https://se-thoughtspot-cloud.thoughtspot.cloud/".

(** A string without the character [#]. *)
Fixpoint hashFree (s : string) : bool :=
  match s with
  | EmptyString => true
  | String c s' => negb (Ascii.eqb c "#"%char) && hashFree s'
  end.

(** * Properties *)

(** ** The selection: [toggle] *)

Section Selection.

Implicit Types (S : list string) (r x : string).

Lemma filter_other_id r S :
  r ∉ S → filter (λ name, name ≠ r) S = S.
Proof.
  induction S as [|y S IH]; intros Hr; [done|].
  apply not_elem_of_cons in Hr as [Hne Hr].
  rewrite filter_cons_True by congruence. by rewrite IH.
Qed.

Lemma not_elem_of_filter_other r S :
  r ∉ filter (λ name, name ≠ r) S.
Proof. rewrite list_elem_of_filter. intros [Hne _]. by apply Hne. Qed.

Lemma toggle_present r S :
  r ∈ S → toggle r S = filter (λ name, name ≠ r) S.
Proof. intros Hr. unfold toggle. by rewrite bool_decide_eq_true_2. Qed.

Lemma toggle_absent r S :
  r ∉ S → toggle r S = S ++ [r].
Proof. intros Hr. unfold toggle. by rewrite bool_decide_eq_false_2. Qed.

Lemma elem_of_toggle r S x :
  x ∈ toggle r S ↔ (x ≠ r ∧ x ∈ S) ∨ (x = r ∧ r ∉ S).
Proof.
  destruct (decide (r ∈ S)) as [Hr|Hr].
  - rewrite toggle_present by done. rewrite list_elem_of_filter.
    intuition congruence.
  - rewrite toggle_absent by done. rewrite elem_of_app, list_elem_of_singleton.
    destruct (decide (x = r)); intuition congruence.
Qed.

Lemma toggle_NoDup r S : NoDup S → NoDup (toggle r S).
Proof.
  intros HS. destruct (decide (r ∈ S)) as [Hr|Hr].
  - rewrite toggle_present by done. by apply NoDup_filter.
  - rewrite toggle_absent by done. apply NoDup_app. split_and!; [done| |].
    + intros y Hy ->%list_elem_of_singleton. done.
    + apply NoDup_singleton.
Qed.

Lemma toggles_snoc names r S :
  toggles (names ++ [r]) S = toggle r (toggles names S).
Proof. unfold toggles. by rewrite foldl_app. Qed.

Lemma toggles_NoDup names S : NoDup S → NoDup (toggles names S).
Proof.
  intros HS. induction names as [|r names IH] using rev_ind; [done|].
  rewrite toggles_snoc. by apply toggle_NoDup.
Qed.

Lemma selectedStates_clicks features st :
  selectedStates (clicks features st)
  = toggles (featureName <$> features) (selectedStates st).
Proof.
  revert st. induction features as [|f features IH]; intros st; [done|].
  unfold clicks, toggles in *. cbn. by rewrite IH.
Qed.

(** C3, as the code has it: toggling a state twice gives the selection
    back when the state was not selected; when it was selected, every
    occurrence of it is removed and it is appended at the end, so the
    same states are selected but the toggled one is now last. *)
Theorem toggle_twice r S :
  toggle r (toggle r S)
    = (if bool_decide (r ∈ S)
       then filter (λ name, name ≠ r) S ++ [r]
       else S)
  ∧ ∀ x, x ∈ toggle r (toggle r S) ↔ x ∈ S.
Proof.
  split.
  - case_bool_decide as Hr.
    + rewrite (toggle_present r S) by done.
      apply toggle_absent, not_elem_of_filter_other.
    + rewrite (toggle_absent r S) by done.
      rewrite toggle_present by (apply elem_of_app; right; by left).
      rewrite filter_app, filter_other_id by done.
      rewrite filter_cons_False by (intros Hne; by apply Hne).
      by rewrite filter_nil, app_nil_r.
  - intros x. rewrite !elem_of_toggle.
    destruct (decide (x = r)) as [->|]; destruct (decide (r ∈ S));
      intuition congruence.
Qed.

(** C3 as the specification words it fails: a selected state that is
    not last moves to the end. *)
Lemma toggle_twice_moves_to_end :
  toggle "A" (toggle "A" ["A"; "B"]) = ["B"; "A"]
  ∧ toggle "A" (toggle "A" ["A"; "B"]) ≠ ["A"; "B"].
Proof. split; [reflexivity|discriminate]. Qed.

(** C9: the selection reached from the empty one by any run of toggles
    has no duplicate. *)
Theorem toggles_from_empty_NoDup names : NoDup (toggles names []).
Proof. apply toggles_NoDup, NoDup_nil_2. Qed.

(** The same for the component: any run of clicks from the initial state. *)
Lemma clicks_NoDup features :
  NoDup (selectedStates (clicks features initialState)).
Proof. rewrite selectedStates_clicks. apply toggles_NoDup, NoDup_nil_2. Qed.

End Selection.

(** ** The sales table: [load] *)

Section MetricStore.

Implicit Types (rows : list DataRow) (st : AppState) (region : string).

Lemma lookup_setProp key v (table : gmap string number) region :
  setProp key v table !! region
  = if bool_decide (key = region ∧ key ≠ "__proto__") then Some v
    else table !! region.
Proof.
  unfold setProp. case_bool_decide as Hproto.
  - rewrite bool_decide_eq_false_2; [done|]. intros [_ Hne]. by apply Hne.
  - destruct (decide (key = region)) as [->|Hne].
    + by rewrite lookup_insert_eq, bool_decide_eq_true_2.
    + rewrite lookup_insert_ne by done.
      rewrite bool_decide_eq_false_2; [done|]. intros [Heq _]. by apply Hne.
Qed.

(** A member of [Object.prototype] is read only where no own property
    hides it. *)
Lemma getProp_ordinary (table : gmap string number) key :
  key ∉ objectPrototypeKeys →
  getProp table key
  = match table !! key with Some v => NumberValue v | None => Undefined end.
Proof.
  intros Hkey. unfold getProp. destruct (table !! key); [done|].
  by rewrite bool_decide_eq_false_2.
Qed.

Lemma foldl_collectRow rows salesData salesValues :
  foldl collectRow (salesData, salesValues) rows
  = (foldl insertRow salesData rows, salesValues ++ rows.*2).
Proof.
  revert salesData salesValues.
  induction rows as [|[k v] rows IH]; intros salesData salesValues; cbn.
  - by rewrite app_nil_r.
  - rewrite IH. unfold insertRow at 2. cbn. by rewrite <- app_assoc.
Qed.

Lemma load_unfold rows st :
  load rows st
  = {| selectedStates := selectedStates st;
       stateSales := foldl insertRow ∅ rows;
       minSales := Math.min (rows.*2);
       maxSales := Math.max (rows.*2) |}.
Proof. unfold load. by rewrite foldl_collectRow. Qed.

(** The range is taken over the value of every row, in row order,
    whether or not a later row replaced it in the table. *)
Lemma range_load rows st :
  range (load rows st) = (Math.min (rows.*2), Math.max (rows.*2)).
Proof. by rewrite load_unfold. Qed.

Lemma lookup_foldl_insertRow rows salesData region :
  foldl insertRow salesData rows !! region
  = match last (filter (λ row : DataRow, row.1 = region ∧ row.1 ≠ "__proto__") rows) with
    | Some row => Some row.2
    | None => salesData !! region
    end.
Proof.
  revert salesData. induction rows as [|[k v] rows IH] using rev_ind;
    intros salesData; [done|].
  rewrite foldl_app, filter_app.
  change (foldl insertRow (foldl insertRow salesData rows) [(k, v)])
    with (setProp k v (foldl insertRow salesData rows)).
  rewrite lookup_setProp. case_bool_decide as Hk.
  - rewrite filter_cons_True by done. by rewrite filter_nil, last_snoc.
  - rewrite filter_cons_False by done. by rewrite filter_nil, app_nil_r, IH.
Qed.

(** Last write wins: a region reads the value of the last row that names
    it, unless the name is [__proto__]; when no row stored a value for
    it, the read falls through to [Object.prototype]. *)
Lemma get_load rows st region :
  get (load rows st) region
  = match last (filter (λ row : DataRow, row.1 = region ∧ row.1 ≠ "__proto__") rows) with
    | Some row => NumberValue row.2
    | None =>
        if bool_decide (region ∈ objectPrototypeKeys) then PrototypeMember
        else Undefined
    end.
Proof.
  rewrite load_unfold. unfold get, getProp. cbn [stateSales].
  rewrite lookup_foldl_insertRow, lookup_empty.
  by destruct (last _).
Qed.

(** C1, as the code has it: in [load([(A,10),(B,30),(A,20)])], for a
    name [A] other than [__proto__], the later row replaces the earlier
    one, so [get(A)] is 20, and the range is taken over the values of all
    three rows, the replaced 10 included: it is (10,30). *)
Theorem load_duplicate_region (A B : string) st :
  A ≠ "__proto__" →
  let st' := load [(A, lit 10); (B, lit 30); (A, lit 20)] st in
  get st' A = NumberValue (lit 20) ∧ range st' = (lit 10, lit 30).
Proof.
  intros HA. cbn zeta. split.
  - rewrite get_load.
    change [(A, lit 10); (B, lit 30); (A, lit 20)]
      with ([(A, lit 10); (B, lit 30)] ++ [(A, lit 20)]).
    rewrite filter_app, (filter_cons_True _ (A, lit 20) []) by done.
    by rewrite filter_nil, last_snoc.
  - by rewrite range_load.
Qed.

Lemma load_duplicate_region_witness :
  "A" ≠ "__proto__"
  ∧ get (load [("A", lit 10); ("B", lit 30); ("A", lit 20)] initialState) "A"
    = NumberValue (lit 20)
  ∧ range (load [("A", lit 10); ("B", lit 30); ("A", lit 20)] initialState)
    = (lit 10, lit 30).
Proof.
  assert ("A" ≠ "__proto__") as HA by discriminate.
  split; [exact HA|]. exact (load_duplicate_region "A" "B" initialState HA).
Defined.

(** C1 as the specification words it fails: the range is not (20,30). *)
Lemma load_duplicate_region_range_not_surviving :
  let st' := load [("A", lit 10); ("B", lit 30); ("A", lit 20)] initialState in
  ¬ (get st' "A" = NumberValue (lit 20) ∧ range st' = (lit 20, lit 30)).
Proof. cbn zeta. intros [_ Hrange]. vm_compute in Hrange. discriminate. Qed.

(** Under the name [__proto__] nothing is stored: the row's value only
    enters the range, and the read gives the prototype. *)
Lemma load_proto_row :
  let st' := load [("__proto__", lit 5); ("Texas", lit 3)] initialState in
  stateSales st' = {[ "Texas" := lit 3 ]}
  ∧ get st' "__proto__" = PrototypeMember
  ∧ range st' = (lit 3, lit 5).
Proof. cbn zeta. split_and!; reflexivity. Qed.

(** C5, the code at an empty row sequence: the table has no property of
    its own, so every region reads as undefined, except the names of the
    members of [Object.prototype]; but the range is
    (+Infinity, -Infinity), with the minimum above the maximum; (0,0) is
    the range of the initial state only. *)
Theorem load_empty st :
  let st' := load [] st in
  stateSales st' = ∅
  ∧ (∀ region, get st' region
       = if bool_decide (region ∈ objectPrototypeKeys) then PrototypeMember
         else Undefined)
  ∧ range st' = (Infinity, NegInfinity)
  ∧ range st' ≠ (lit 0, lit 0)
  ∧ range initialState = (lit 0, lit 0).
Proof.
  cbn zeta. split_and!; [done|intros region; by rewrite get_load|done..].
Qed.

(** A response without any content leaves every state cell as it was. *)
Lemma onSearchData_no_content st :
  onSearchData {| contents := [] |} st = st.
Proof. done. Qed.

Lemma onSearchData_first_content rows others st :
  onSearchData {| contents := {| data_rows := rows |} :: others |} st
  = load rows st.
Proof. done. Qed.

End MetricStore.

(** ** The colour scale: [interpolateColor] *)

Section ColorScale.

(** C2, the code at [value = min = max = 5], the range a single row
    gives: the normalized value is 0/0 and every channel is NaN. *)
Theorem interpolateColor_degenerate_NaN :
  interpolateColor (lit 5) (lit 5) (lit 5) = RgbTemplate NaN NaN NaN
  ∧ channels Number.is_integer (interpolateColor (lit 5) (lit 5) (lit 5)) = false.
Proof. split; reflexivity. Qed.

(** C7, the code at a value above [max]: with [min = 10 < max = 30] and
    [value = 50] the normalized value is 2, the red channel is 382 and
    the green and blue channels are negative; nothing clamps. And at a
    value inside the range when [max - min] overflows: with
    [min = -2^1023 < max = 2^1023] and [value = max] both differences are
    +Infinity, their quotient is NaN and so is every channel. *)
Theorem interpolateColor_out_of_range :
  (Number.lt (lit 10) (lit 30) = true
   ∧ interpolateColor (lit 50) (lit 10) (lit 30)
     = RgbTemplate (lit 382) (lit (-127)) (lit (-203))
   ∧ channels (Number.integer_in 0 255)
       (interpolateColor (lit 50) (lit 10) (lit 30)) = false)
  ∧ (Number.lt (lit (- 2 ^ 1023)) (lit (2 ^ 1023)) = true
     ∧ interpolateColor (lit (2 ^ 1023)) (lit (- 2 ^ 1023)) (lit (2 ^ 1023))
       = RgbTemplate NaN NaN NaN
     ∧ channels (Number.integer_in 0 255)
         (interpolateColor (lit (2 ^ 1023)) (lit (- 2 ^ 1023)) (lit (2 ^ 1023)))
       = false).
Proof. split; split_and!; reflexivity. Qed.

(** Inside the range the channels are the expected ones on ordinary
    values. *)
Lemma interpolateColor_inside :
  interpolateColor (lit 100) (lit 100) (lit 500)
  = RgbTemplate (lit 128) (lit 255) (lit 255)
  ∧ interpolateColor (lit 500) (lit 100) (lit 500)
    = RgbTemplate (lit 255) (lit 64) (lit 26)
  ∧ interpolateColor (lit 170) (lit 0) (lit 191)
    = RgbTemplate (lit 241) (lit 84) (lit 51).
Proof. split_and!; reflexivity. Qed.

Lemma sub_self_finite s m e :
  (S754_finite s m e - S754_finite s m e)%num = S754_zero false.
Proof.
  unfold Number.sub, SFsub. by rewrite Z.min_id, Z.sub_diag.
Qed.

(** Two strictly equal numbers are both zeros, or the same number. *)
Lemma strict_eq_cases (x y : number) :
  Number.strict_eq x y = true →
  (∃ sx sy, x = S754_zero sx ∧ y = S754_zero sy) ∨ (x = y ∧ x ≠ NaN).
Proof.
  unfold Number.strict_eq, SFeqb.
  destruct x as [sx|sx| |sx mx ex], y as [sy|sy| |sy my ey]; cbn;
    try discriminate; try (by destruct sx); try (by destruct sy).
  - intros _. left. by exists sx, sy.
  - destruct sx, sy; try discriminate; intros _; by right.
  - destruct sx, sy; try discriminate.
    + destruct (Z.compare_spec ex ey) as [->| |]; try discriminate.
      rewrite Pos.compare_cont_spec. cbn [Pos.switch_Eq].
      destruct (Pos.compare_spec mx my) as [->| |]; try discriminate.
      intros _. by right.
    + destruct (Z.compare_spec ex ey) as [->| |]; try discriminate.
      rewrite Pos.compare_cont_spec. cbn [Pos.switch_Eq].
      destruct (Pos.compare_spec mx my) as [->| |]; try discriminate.
      intros _. by right.
Qed.

(** With [min === max] the divisor [max - min] is a zero, or NaN when
    both are the same infinity. *)
Lemma sub_strict_eq (min max : number) :
  Number.strict_eq min max = true →
  (∃ s, (max - min)%num = S754_zero s) ∨ (max - min)%num = NaN.
Proof.
  intros [(sx & sy & -> & ->)|[<- Hnan]]%strict_eq_cases.
  - left. destruct sx, sy; by eexists.
  - destruct min as [s|s| |s m e]; [| |done|].
    + left. destruct s; by eexists.
    + right. by destruct s.
    + left. exists false. apply sub_self_finite.
Qed.

(** A quotient by a zero or by NaN is never finite. *)
Lemma div_zero_not_finite (x d : number) :
  (∃ s, d = S754_zero s) ∨ d = NaN →
  Number.is_finite (x / d)%num = false.
Proof.
  intros [[s ->]| ->]; by destruct x.
Qed.

(** When the normalized value is NaN or an infinity, so is every
    channel. *)
Lemma channels_of_not_finite (t : number) :
  Number.is_finite t = false →
  let red := Math.floor (lit 128 + (lit 255 - lit 128) * t)%num in
  let green := Math.floor (lit 64 + (lit 255 - lit 64) * (lit 1 - t))%num in
  let blue := Math.floor (lit 26 + (lit 255 - lit 26) * (lit 1 - t))%num in
  Number.is_finite red = false ∧ Number.is_finite green = false
  ∧ Number.is_finite blue = false.
Proof.
  destruct t as [s|s| |s m e]; try discriminate; intros _.
  - destruct s; split_and!; reflexivity.
  - split_and!; reflexivity.
Qed.

(** With [min === max] no channel is ever a finite number, whatever the
    value: each of the three is NaN or an infinity. *)
Theorem interpolateColor_equal_bounds (value min max : number) :
  Number.strict_eq min max = true →
  channels (λ x, negb (Number.is_finite x)) (interpolateColor value min max) = true.
Proof.
  intros Heq. unfold interpolateColor, channels.
  pose proof (div_zero_not_finite (value - min)%num _ (sub_strict_eq _ _ Heq)) as Ht.
  destruct (channels_of_not_finite _ Ht) as (Hr & Hg & Hb).
  cbn zeta in *. by rewrite Hr, Hg, Hb.
Qed.

Lemma interpolateColor_equal_bounds_witness :
  Number.strict_eq (lit 7) (lit 7) = true
  ∧ channels (λ x, negb (Number.is_finite x))
      (interpolateColor (lit 9) (lit 7) (lit 7)) = true.
Proof.
  assert (Number.strict_eq (lit 7) (lit 7) = true) as Heq by reflexivity.
  split; [exact Heq|]. exact (interpolateColor_equal_bounds (lit 9) _ _ Heq).
Defined.

(** A channel that is not finite is not an integer. *)
Lemma not_finite_not_integer (x : number) :
  Number.is_finite x = false → Number.is_integer x = false.
Proof. by destruct x. Qed.

(** A NaN value gives NaN channels, whatever the bounds. *)
Lemma interpolateColor_NaN (min max : number) :
  interpolateColor NaN min max = RgbTemplate NaN NaN NaN.
Proof.
  reflexivity.
Qed.

End ColorScale.

(** ** The style of a feature: [stateStyle] *)

Section RegionStyler.

Implicit Types (st : AppState) (feature : option Feature) (region : string).

Lemma optFeatureName_named region :
  optFeatureName (Some (named region)) = region.
Proof. by destruct region. Qed.

Lemma featureName_named region : featureName (named region) = region.
Proof. by destruct region. Qed.

Lemma featureName_nameless (f : Feature) :
  nameless f → featureName f = "".
Proof. unfold nameless, featureName. by intros ->. Qed.

Lemma optFeatureName_nameless (f : Feature) :
  nameless f → optFeatureName (Some f) = "".
Proof. unfold nameless, optFeatureName. cbn. by intros ->. Qed.

Lemma empty_name_ordinary : "" ∉ objectPrototypeKeys.
Proof. by apply (bool_decide_unpack _). Qed.

(** The decision of [stateStyle], by the name the feature resolves to
    and by what the table gives under that name. *)
Lemma fillColor_stateStyle st feature :
  fillColor (stateStyle st feature)
  = if bool_decide (optFeatureName feature ∈ selectedStates st)
    then Literal "#cccccc"
    else match stateSales st !! optFeatureName feature with
         | Some v =>
             if Number.truthy v
             then interpolateColor v (minSales st) (maxSales st)
             else Literal "#3388ff"
         | None =>
             if bool_decide (optFeatureName feature ∈ objectPrototypeKeys)
             then RgbTemplate NaN NaN NaN
             else Literal "#3388ff"
         end.
Proof.
  unfold stateStyle, getProp. cbn [fillColor].
  destruct (stateSales st !! optFeatureName feature) as [v|]; [done|].
  destruct (bool_decide (optFeatureName feature ∈ objectPrototypeKeys)); [|done].
  cbn [truthyValue toNumber]. by rewrite interpolateColor_NaN.
Qed.

(** The other style fields are the same for every feature and state. *)
Lemma stateStyle_constants st feature :
  weight (stateStyle st feature) = lit 2
  ∧ opacity (stateStyle st feature) = lit 1
  ∧ color (stateStyle st feature) = "white"
  ∧ fillOpacity (stateStyle st feature) = (lit 7 / lit 10)%num.
Proof. done. Qed.

(** C8: a feature whose name is in the selection is filled with the
    selected colour, whatever the table holds for it. *)
Theorem stateStyle_selected st feature :
  optFeatureName feature ∈ selectedStates st →
  fillColor (stateStyle st feature) = Literal "#cccccc".
Proof.
  intros Hsel. rewrite fillColor_stateStyle.
  by rewrite bool_decide_eq_true_2.
Qed.

Lemma stateStyle_selected_witness :
  let st := {| selectedStates := ["Texas"];
               stateSales := {["Texas" := lit 500; "Ohio" := lit 100]};
               minSales := lit 100;
               maxSales := lit 500 |} in
  optFeatureName (Some (named "Texas")) ∈ selectedStates st
  ∧ stateSales st !! "Texas" = Some (lit 500)
  ∧ fillColor (stateStyle st (Some (named "Texas"))) = Literal "#cccccc".
Proof.
  cbn zeta.
  assert (optFeatureName (Some (named "Texas")) ∈ ["Texas"]) as Hsel
    by apply list_elem_of_here.
  split_and!; [exact Hsel|reflexivity|].
  by apply stateStyle_selected.
Defined.

(** A region that is not selected and has a truthy value is filled by
    the colour scale. *)
Lemma stateStyle_truthy_value st feature v :
  optFeatureName feature ∉ selectedStates st →
  stateSales st !! optFeatureName feature = Some v →
  Number.truthy v = true →
  fillColor (stateStyle st feature) = interpolateColor v (minSales st) (maxSales st).
Proof.
  intros Hsel Hv Ht. rewrite fillColor_stateStyle.
  by rewrite bool_decide_eq_false_2, Hv, Ht.
Qed.

(** A region that is not selected and has a falsy value, zero or NaN,
    is filled with the default colour, as a region without entry is. *)
Lemma stateStyle_falsy_value st feature v :
  optFeatureName feature ∉ selectedStates st →
  stateSales st !! optFeatureName feature = Some v →
  Number.truthy v = false →
  fillColor (stateStyle st feature) = Literal "#3388ff".
Proof.
  intros Hsel Hv Ht. rewrite fillColor_stateStyle.
  by rewrite bool_decide_eq_false_2, Hv, Ht.
Qed.

(** A region that is not selected, has no entry and does not bear the
    name of a member of [Object.prototype] is filled with the default
    colour. *)
Lemma stateStyle_no_value st feature :
  optFeatureName feature ∉ selectedStates st →
  stateSales st !! optFeatureName feature = None →
  optFeatureName feature ∉ objectPrototypeKeys →
  fillColor (stateStyle st feature) = Literal "#3388ff".
Proof.
  intros Hsel Hv Hkey. rewrite fillColor_stateStyle.
  by rewrite bool_decide_eq_false_2, Hv, bool_decide_eq_false_2.
Qed.

(** A region that is not selected, has no entry and bears the name of a
    member of [Object.prototype] reads that member, which is truthy and
    no number: it is filled with rgb(NaN,NaN,NaN). *)
Lemma stateStyle_prototype_member st feature :
  optFeatureName feature ∉ selectedStates st →
  stateSales st !! optFeatureName feature = None →
  optFeatureName feature ∈ objectPrototypeKeys →
  fillColor (stateStyle st feature) = RgbTemplate NaN NaN NaN.
Proof.
  intros Hsel Hv Hkey. rewrite fillColor_stateStyle.
  by rewrite bool_decide_eq_false_2, Hv, bool_decide_eq_true_2.
Qed.

(** C4, the code at a stored value of 0: after
    [load([("Ohio",0),("Texas",100)])] and with nothing selected, Ohio has
    the entry 0 and the scale would give it rgb(128,255,255), yet it is
    filled with the default colour. *)
Theorem stateStyle_zero_value_default :
  let st := load [("Ohio", lit 0); ("Texas", lit 100)] initialState in
  ("Ohio" ∉ selectedStates st)
  ∧ get st "Ohio" = NumberValue (lit 0)
  ∧ interpolateColor (lit 0) (minSales st) (maxSales st)
    = RgbTemplate (lit 128) (lit 255) (lit 255)
  ∧ fillColor (stateStyle st (Some (named "Ohio"))) = Literal "#3388ff".
Proof.
  cbn zeta. split_and!; [apply not_elem_of_nil|reflexivity..].
Qed.

(** C2, through the component: a table of one row has [min = max], and
    its only region is filled with rgb(NaN,NaN,NaN). *)
Lemma stateStyle_single_row_NaN :
  let st := load [("Ohio", lit 5)] initialState in
  range st = (lit 5, lit 5)
  ∧ fillColor (stateStyle st (Some (named "Ohio"))) = RgbTemplate NaN NaN NaN.
Proof. cbn zeta. split; reflexivity. Qed.

(** C7, through the component: two rows whose values are the largest
    powers of two of either sign make [max - min] overflow, and the region
    that holds the maximum is filled with rgb(NaN,NaN,NaN). *)
Lemma stateStyle_overflow_NaN :
  let st := load [("Ohio", lit (- 2 ^ 1023)); ("Texas", lit (2 ^ 1023))] initialState in
  Number.lt (minSales st) (maxSales st) = true
  ∧ get st "Texas" = NumberValue (maxSales st)
  ∧ fillColor (stateStyle st (Some (named "Texas"))) = RgbTemplate NaN NaN NaN.
Proof. cbn zeta. split_and!; reflexivity. Qed.

(** C10: a feature without a name stands for the region [''] : a click
    on it toggles [''] in the selection, so any two such features toggle
    the same entry, and its style is decided by [''], in the selection
    and in the table. *)
Theorem nameless_feature_empty_region st (f : Feature) :
  nameless f →
  selectedStates (click f st) = toggle "" (selectedStates st)
  ∧ (∀ g : Feature, nameless g → click g st = click f st)
  ∧ fillColor (stateStyle st (Some f))
    = (if bool_decide ("" ∈ selectedStates st)
       then Literal "#cccccc"
       else match stateSales st !! "" with
            | Some v =>
                if Number.truthy v
                then interpolateColor v (minSales st) (maxSales st)
                else Literal "#3388ff"
            | None => Literal "#3388ff"
            end).
Proof.
  intros Hf. split_and!.
  - unfold click. cbn. by rewrite featureName_nameless.
  - intros g Hg. unfold click. by rewrite !featureName_nameless.
  - rewrite fillColor_stateStyle, optFeatureName_nameless by done.
    by rewrite (bool_decide_eq_false_2 _ empty_name_ordinary).
Qed.

Lemma nameless_feature_empty_region_witness :
  let f := {| properties := Some {| name := None |} |} in
  let st := {| selectedStates := ["Ohio"];
               stateSales := {["" := lit 3]};
               minSales := lit 1;
               maxSales := lit 5 |} in
  nameless f
  ∧ selectedStates (click f st) = ["Ohio"; ""]
  ∧ fillColor (stateStyle st (Some f)) = RgbTemplate (lit 191) (lit 159) (lit 140).
Proof.
  cbn zeta.
  assert (nameless {| properties := Some {| name := None |} |}) as Hf
    by reflexivity.
  split; [exact Hf|].
  pose proof (nameless_feature_empty_region
    {| selectedStates := ["Ohio"]; stateSales := {["" := lit 3]};
       minSales := lit 1; maxSales := lit 5 |} _ Hf) as (Hclick & _ & Hstyle).
  split; [by rewrite Hclick|by rewrite Hstyle].
Defined.

(** The style function called without a feature resolves to [''] too. *)
Lemma optFeatureName_undefined : optFeatureName None = "".
Proof. done. Qed.

(** A name that is present but empty is taken as [''] by [||] as well. *)
Lemma featureName_empty : featureName (named "") = "".
Proof. done. Qed.

End RegionStyler.


(** ** The order of numbers *)

Section NumberOrder.

Implicit Types (x y z : number).

Lemma le_finite s1 m1 e1 s2 m2 e2 :
  Number.le (S754_finite s1 m1 e1) (S754_finite s2 m2 e2) = true
  ↔ match s1, s2 with
    | true, false => True
    | false, true => False
    | false, false => e1 < e2 ∨ (e1 = e2 ∧ (m1 ≤ m2)%positive)
    | true, true => e2 < e1 ∨ (e1 = e2 ∧ (m2 ≤ m1)%positive)
    end.
Proof.
  unfold Number.le, SFleb, SFcompare. rewrite Pos.compare_cont_spec.
  cbn [Pos.switch_Eq].
  destruct s1, s2; [| done | split; [discriminate|done] |];
    destruct (Z.compare_spec e1 e2); destruct (Pos.compare_spec m1 m2);
    cbn; split; intros Hcmp; try done; try discriminate; lia.
Qed.

Lemma lt_finite s1 m1 e1 s2 m2 e2 :
  Number.lt (S754_finite s1 m1 e1) (S754_finite s2 m2 e2) = true
  ↔ match s1, s2 with
    | true, false => True
    | false, true => False
    | false, false => e1 < e2 ∨ (e1 = e2 ∧ (m1 < m2)%positive)
    | true, true => e2 < e1 ∨ (e1 = e2 ∧ (m2 < m1)%positive)
    end.
Proof.
  unfold Number.lt, SFltb, SFcompare. rewrite Pos.compare_cont_spec.
  cbn [Pos.switch_Eq].
  destruct s1, s2; [| done | split; [discriminate|done] |];
    destruct (Z.compare_spec e1 e2); destruct (Pos.compare_spec m1 m2);
    cbn; split; intros Hcmp; try done; try discriminate; lia.
Qed.

Lemma le_refl x : x ≠ NaN → Number.le x x = true.
Proof.
  destruct x as [s|s| |s m e]; try done; intros _.
  - by destruct s.
  - apply le_finite. destruct s; lia.
Qed.

Lemma lt_le x y : Number.lt x y = true → Number.le x y = true.
Proof.
  destruct x as [sx|sx| |sx mx ex], y as [sy|sy| |sy my ey];
    try done; try (by destruct sx, sy); try (by destruct sx); try (by destruct sy).
  rewrite lt_finite, le_finite. destruct sx, sy; lia.
Qed.

Lemma not_lt_le x y :
  x ≠ NaN → y ≠ NaN → Number.lt x y = false → Number.le y x = true.
Proof.
  destruct x as [sx|sx| |sx mx ex], y as [sy|sy| |sy my ey];
    try done; try (by destruct sx, sy); try (by destruct sx); try (by destruct sy).
  intros _ _ Hlt. apply not_true_iff_false in Hlt.
  rewrite lt_finite in Hlt. rewrite le_finite. destruct sx, sy; lia.
Qed.

Lemma le_trans x y z :
  Number.le x y = true → Number.le y z = true → Number.le x z = true.
Proof.
  destruct x as [sx|sx| |sx mx ex], y as [sy|sy| |sy my ey],
    z as [sz|sz| |sz mz ez];
    try done; try (by destruct sx, sy, sz); try (by destruct sx, sy);
    try (by destruct sy, sz); try (by destruct sx, sz);
    rewrite ?le_finite;
    try (destruct sx, sy, sz; (done || lia));
    try (destruct sx, sy; (done || lia));
    try (destruct sy, sz; (done || lia));
    try (destruct sx, sz; (done || lia)).
Qed.

End NumberOrder.
(** * Further properties of the component *)

(** ** More on the selection *)

Section SelectionMore.

Implicit Types (S : list string) (r x : string).

Lemma filter_other_idemp r S :
  filter (λ name, name ≠ r) (filter (λ name, name ≠ r) S)
  = filter (λ name, name ≠ r) S.
Proof. apply filter_other_id, not_elem_of_filter_other. Qed.

Lemma filter_other_snoc r S :
  filter (λ name, name ≠ r) (S ++ [r]) = filter (λ name, name ≠ r) S.
Proof.
  rewrite filter_app, filter_cons_False by (intros Hne; by apply Hne).
  by rewrite filter_nil, app_nil_r.
Qed.

Lemma length_filter_other r S :
  NoDup S → r ∈ S →
  Datatypes.S (length (filter (λ name, name ≠ r) S)) = length S.
Proof.
  induction 1 as [|y S Hy HS IH]; intros Hr; [by apply elem_of_nil in Hr|].
  destruct (decide (y = r)) as [->|Hne].
  - rewrite filter_cons_False by (intros Hne; by apply Hne).
    by rewrite filter_other_id.
  - rewrite filter_cons_True by done. cbn. f_equal. apply IH.
    apply elem_of_cons in Hr as [->|Hr]; [done|exact Hr].
Qed.

Lemma elem_of_toggle_twice r S x :
  x ∈ toggle r (toggle r S) ↔ x ∈ S.
Proof.
  rewrite !elem_of_toggle.
  destruct (decide (x = r)) as [->|]; destruct (decide (r ∈ S));
    intuition congruence.
Qed.

(** A click flips the membership of the clicked state and of no other. *)
Theorem toggle_flips_only_clicked r S :
  (r ∈ toggle r S ↔ r ∉ S)
  ∧ ∀ x, x ≠ r → (x ∈ toggle r S ↔ x ∈ S).
Proof.
  split.
  - rewrite elem_of_toggle. intuition congruence.
  - intros x Hx. rewrite elem_of_toggle. intuition congruence.
Qed.

(** A click never reorders the other states: without the clicked name,
    the selection reads the same before and after. *)
Theorem toggle_keeps_order_of_others r S :
  filter (λ name, name ≠ r) (toggle r S) = filter (λ name, name ≠ r) S.
Proof.
  destruct (decide (r ∈ S)) as [Hr|Hr].
  - rewrite toggle_present by done. apply filter_other_idemp.
  - rewrite toggle_absent by done. apply filter_other_snoc.
Qed.

(** Two clicks on a state need not give the selection back, but a third
    click always gives what the first one gave. *)
Theorem toggle_thrice r S :
  toggle r (toggle r (toggle r S)) = toggle r S.
Proof.
  destruct (decide (r ∈ S)) as [Hr|Hr].
  - rewrite (toggle_present r S) by done.
    rewrite (toggle_absent r (filter _ S)) by apply not_elem_of_filter_other.
    rewrite toggle_present by (apply elem_of_app; right; apply list_elem_of_here).
    by rewrite filter_other_snoc, filter_other_idemp.
  - rewrite (toggle_absent r S) by done.
    rewrite (toggle_present r (S ++ [r]))
      by (apply elem_of_app; right; apply list_elem_of_here).
    rewrite filter_other_snoc, filter_other_id by done.
    by apply toggle_absent.
Qed.

(** On a selection without duplicates a click changes the number of
    selected states by exactly one. *)
Theorem toggle_length r S :
  NoDup S →
  length (toggle r S)
  = if bool_decide (r ∈ S) then pred (length S) else Datatypes.S (length S).
Proof.
  intros HS. case_bool_decide as Hr.
  - rewrite toggle_present by done.
    by rewrite <- (length_filter_other r S HS Hr).
  - rewrite toggle_absent by done. rewrite length_app. cbn. lia.
Qed.

Lemma toggle_length_witness :
  NoDup ["Ohio"; "Texas"]
  ∧ length (toggle "Ohio" ["Ohio"; "Texas"]) = 1%nat.
Proof.
  assert (NoDup ["Ohio"; "Texas"]) as HS.
  { apply NoDup_cons. split; [|apply NoDup_singleton].
    intros Hin%list_elem_of_singleton. discriminate. }
  split; [exact HS|]. by rewrite (toggle_length "Ohio" _ HS).
Defined.

(** With a duplicate in the list the count can drop by more than one:
    the filter removes every occurrence. *)
Lemma toggle_length_duplicate :
  length (toggle "Ohio" ["Ohio"; "Ohio"]) = 0%nat.
Proof. reflexivity. Qed.

(** Two clicks on the same feature restore the style of every feature,
    although they may reorder the selection. *)
Theorem double_click_restores_styles st (f : Feature) (g : option Feature) :
  stateStyle (click f (click f st)) g = stateStyle st g.
Proof.
  unfold stateStyle. cbn [click selectedStates stateSales minSales maxSales].
  by rewrite (bool_decide_ext _ _ (elem_of_toggle_twice (featureName f)
    (selectedStates st) (optFeatureName g))).
Qed.

End SelectionMore.

(** ** More on the sales table *)

Section MetricStoreMore.

Implicit Types (rows : list DataRow) (st : AppState) (region : string).

Lemma filter_key_absent rows region :
  region ∉ rows.*1 →
  filter (λ row : DataRow, row.1 = region ∧ row.1 ≠ "__proto__") rows = [].
Proof.
  induction rows as [|[k v] rows IH]; intros Hr; [done|].
  rewrite fmap_cons in Hr. apply not_elem_of_cons in Hr as [Hne Hr].
  rewrite filter_cons_False
    by (intros [Heq _]; apply Hne; symmetry; exact Heq).
  by apply IH.
Qed.

Lemma filter_key_proto rows :
  filter (λ row : DataRow, row.1 = "__proto__" ∧ row.1 ≠ "__proto__") rows = [].
Proof.
  induction rows as [|[k v] rows IH]; [done|].
  by rewrite filter_cons_False by (intros [Heq Hne]; by apply Hne).
Qed.

Lemma filter_key_NoDup rows region v :
  NoDup rows.*1 → region ≠ "__proto__" → (region, v) ∈ rows →
  filter (λ row : DataRow, row.1 = region ∧ row.1 ≠ "__proto__") rows
  = [(region, v)].
Proof.
  induction rows as [|[k w] rows IH]; intros Hnd Hproto Hin;
    [by apply elem_of_nil in Hin|].
  rewrite fmap_cons in Hnd. apply NoDup_cons in Hnd as [Hk Hnd].
  apply elem_of_cons in Hin as [Heq|Hin].
  - injection Heq as -> ->. rewrite filter_cons_True by done.
    by rewrite filter_key_absent.
  - assert (k ≠ region) as Hne.
    { intros ->. apply Hk. by apply (list_elem_of_fmap_2 fst) in Hin. }
    rewrite filter_cons_False by (by intros [? _]). by apply IH.
Qed.

(** Last write wins, in general: a region other than [__proto__] reads
    the value of the last row that names it, whatever comes before. *)
Theorem load_last_write_wins rows rest region v st :
  region ≠ "__proto__" → region ∉ rest.*1 →
  get (load (rows ++ (region, v) :: rest) st) region = NumberValue v.
Proof.
  intros Hproto Hrest. rewrite get_load, filter_app, filter_cons_True by done.
  rewrite (filter_key_absent rest region Hrest). by rewrite last_snoc.
Qed.

Lemma load_last_write_wins_witness :
  ("Ohio" ≠ "__proto__" ∧ ("Ohio" ∉ [("Texas", lit 7)].*1))
  ∧ get (load ([("Ohio", lit 1); ("Texas", lit 2)]
               ++ ("Ohio", lit 3) :: [("Texas", lit 7)]) initialState) "Ohio"
    = NumberValue (lit 3).
Proof.
  assert ("Ohio" ≠ "__proto__") as Hproto by discriminate.
  assert ("Ohio" ∉ [("Texas", lit 7)].*1) as Hrest.
  { intros Hin%list_elem_of_singleton. discriminate. }
  split; [by split|]. by apply load_last_write_wins.
Defined.

Lemma get_load_named rows st region :
  region ∈ rows.*1 → region ≠ "__proto__" →
  ∃ v, get (load rows st) region = NumberValue v.
Proof.
  intros ([k v] & -> & Hin)%list_elem_of_fmap Hproto. rewrite get_load.
  destruct (last _) as [row|] eqn:Hlast; [by eexists|].
  apply last_None in Hlast.
  assert ((k, v) ∈ filter (λ row : DataRow, row.1 = (k, v).1 ∧ row.1 ≠ "__proto__") rows)
    as Hf by (by apply list_elem_of_filter).
  rewrite Hlast in Hf. by apply elem_of_nil in Hf.
Qed.

Lemma get_load_unnamed rows st region :
  region ∉ rows.*1 ∨ region = "__proto__" →
  get (load rows st) region
  = if bool_decide (region ∈ objectPrototypeKeys) then PrototypeMember
    else Undefined.
Proof.
  intros [Hnot| ->]; rewrite get_load.
  - by rewrite filter_key_absent.
  - by rewrite filter_key_proto.
Qed.

(** What the table gives after a load, whatever table was there before:
    a number exactly for the regions that some row names, [__proto__]
    apart; for every other name the member of [Object.prototype] of that
    name when there is one, and undefined otherwise. *)
Theorem load_has_entry_iff_named rows st region :
  ((∃ v, get (load rows st) region = NumberValue v)
   ↔ region ∈ rows.*1 ∧ region ≠ "__proto__")
  ∧ (get (load rows st) region = PrototypeMember
     ↔ ((region ∉ rows.*1) ∨ region = "__proto__")
       ∧ region ∈ objectPrototypeKeys)
  ∧ (get (load rows st) region = Undefined
     ↔ (region ∉ rows.*1) ∧ (region ∉ objectPrototypeKeys)).
Proof.
  assert ("__proto__" ∈ objectPrototypeKeys) as Hkey
    by (by apply (bool_decide_unpack _)).
  destruct (decide (region ∈ rows.*1 ∧ region ≠ "__proto__")) as [[Hin Hne]|Hno].
  - destruct (get_load_named rows st region Hin Hne) as [v Hv]. rewrite Hv.
    split_and!; split.
    + done.
    + intros _. by exists v.
    + discriminate.
    + by intros [[?|?] _].
    + discriminate.
    + by intros [? _].
  - assert ((region ∉ rows.*1) ∨ region = "__proto__") as Hun.
    { destruct (decide (region = "__proto__")); [by right|left].
      intros Hin. by apply Hno. }
    rewrite (get_load_unnamed rows st region Hun).
    case_bool_decide as Hk; split_and!; split.
    + intros [v Hv]. discriminate.
    + intros Hyes. by destruct Hno.
    + done.
    + done.
    + discriminate.
    + by intros [_ ?].
    + intros [v Hv]. discriminate.
    + intros Hyes. by destruct Hno.
    + discriminate.
    + by intros [_ ?].
    + intros _. split; [|done]. destruct Hun as [?| ->]; [done|]. by destruct Hk.
    + done.
Qed.

(** With distinct region names, none of them [__proto__], nothing is
    overwritten or dropped: every row reads back its own value and the
    table has one entry per row. *)
Theorem load_distinct_names rows st :
  NoDup rows.*1 → "__proto__" ∉ rows.*1 →
  (∀ region v, (region, v) ∈ rows → get (load rows st) region = NumberValue v)
  ∧ size (stateSales (load rows st)) = length rows.
Proof.
  intros Hnd Hproto. split.
  - intros region v Hin. rewrite get_load.
    rewrite (filter_key_NoDup rows region v Hnd); [done| |done].
    intros ->. apply Hproto. by apply (list_elem_of_fmap_2 fst) in Hin.
  - rewrite load_unfold. cbn [stateSales].
    induction rows as [|[k v] rows IH] using rev_ind; [done|].
    rewrite fmap_app in Hnd, Hproto. apply NoDup_app in Hnd as (Hnd & Hk & _).
    apply not_elem_of_app in Hproto as [Hproto Hk'].
    assert (k ≠ "__proto__") as Hne.
    { intros ->. apply Hk'. apply list_elem_of_here. }
    rewrite foldl_app, length_app.
    change (foldl insertRow (foldl insertRow ∅ rows) [(k, v)])
      with (setProp k v (foldl insertRow ∅ rows)).
    unfold setProp. rewrite bool_decide_eq_false_2 by done.
    rewrite map_size_insert_None; [rewrite IH by done; cbn; lia|].
    rewrite lookup_foldl_insertRow, lookup_empty, filter_key_absent; [done|].
    intros Hin. apply (Hk k Hin). apply list_elem_of_here.
Qed.

Lemma load_distinct_names_witness :
  (NoDup [("Texas", lit 500); ("Ohio", lit 100)].*1
   ∧ ("__proto__" ∉ [("Texas", lit 500); ("Ohio", lit 100)].*1))
  ∧ get (load [("Texas", lit 500); ("Ohio", lit 100)] initialState) "Ohio"
    = NumberValue (lit 100)
  ∧ size (stateSales (load [("Texas", lit 500); ("Ohio", lit 100)] initialState))
    = 2%nat.
Proof.
  assert (NoDup [("Texas", lit 500); ("Ohio", lit 100)].*1) as Hnd.
  { apply NoDup_cons. split; [|apply NoDup_singleton].
    intros Hin%list_elem_of_singleton. discriminate. }
  assert ("__proto__" ∉ [("Texas", lit 500); ("Ohio", lit 100)].*1) as Hproto
    by (by apply (bool_decide_unpack _)).
  destruct (load_distinct_names _ initialState Hnd Hproto) as [Hget Hsize].
  split; [by split|]. split; [|exact Hsize].
  apply Hget. apply list_elem_of_further, list_elem_of_here.
Defined.

(** With a repeated name the table is smaller than the row list. *)
Lemma load_repeated_name_size :
  size (stateSales (load [("A", lit 10); ("B", lit 30); ("A", lit 20)] initialState))
  = 2%nat.
Proof. reflexivity. Qed.

(** A response with content replaces the table and the range wholesale:
    nothing of an earlier response is kept or merged. *)
Theorem onSearchData_replaces (r1 r2 : SearchDataResponse) st :
  contents r2 ≠ [] →
  onSearchData r2 (onSearchData r1 st) = onSearchData r2 st.
Proof.
  intros Hr2. unfold onSearchData.
  destruct (contents r2) as [|c2 ?]; [done|].
  destruct (contents r1) as [|c1 ?]; [done|].
  by rewrite !load_unfold.
Qed.

Lemma onSearchData_replaces_witness :
  let r1 := {| contents := [ {| data_rows := [("Ohio", lit 1)] |} ] |} in
  let r2 := {| contents := [ {| data_rows := [("Texas", lit 2)] |} ] |} in
  contents r2 ≠ []
  ∧ get (onSearchData r2 (onSearchData r1 initialState)) "Ohio" = Undefined.
Proof.
  cbn zeta.
  assert (contents {| contents := [ {| data_rows := [("Texas", lit 2)] |} ] |} ≠ [])
    as Hr2 by discriminate.
  split; [exact Hr2|].
  by rewrite (onSearchData_replaces _ _ initialState Hr2).
Defined.

(** The response and a click do not interfere: the response keeps the
    selection, the click keeps the table, and they can come in either
    order. *)
Theorem click_onSearchData_commute (f : Feature) (response : SearchDataResponse) st :
  click f (onSearchData response st) = onSearchData response (click f st).
Proof.
  unfold onSearchData. destruct (contents response) as [|c ?]; [done|].
  by rewrite !load_unfold.
Qed.

Lemma foldl_min2_NaN (vs : list number) : foldl Math.min2 NaN vs = NaN.
Proof. induction vs as [|v vs IH]; [done|]. cbn. exact IH. Qed.

Lemma foldl_max2_NaN (vs : list number) : foldl Math.max2 NaN vs = NaN.
Proof. induction vs as [|v vs IH]; [done|]. cbn. exact IH. Qed.

Lemma min2_NaN_r lowest : Math.min2 lowest NaN = NaN.
Proof. by destruct lowest as [[]| | |]. Qed.

Lemma max2_NaN_r highest : Math.max2 highest NaN = NaN.
Proof. by destruct highest as [[]| | |]. Qed.

Lemma foldl_min2_elem_NaN (vs : list number) lowest :
  NaN ∈ vs → foldl Math.min2 lowest vs = NaN.
Proof.
  revert lowest. induction vs as [|v vs IH]; intros lowest Hin;
    [by apply elem_of_nil in Hin|].
  cbn. apply elem_of_cons in Hin as [<-|Hin]; [|by apply IH].
  by rewrite min2_NaN_r, foldl_min2_NaN.
Qed.

Lemma foldl_max2_elem_NaN (vs : list number) highest :
  NaN ∈ vs → foldl Math.max2 highest vs = NaN.
Proof.
  revert highest. induction vs as [|v vs IH]; intros highest Hin;
    [by apply elem_of_nil in Hin|].
  cbn. apply elem_of_cons in Hin as [<-|Hin]; [|by apply IH].
  by rewrite max2_NaN_r, foldl_max2_NaN.
Qed.

(** One row whose value is NaN makes both bounds NaN, wherever it stands
    among the rows. *)
Theorem load_NaN_row_poisons_range rows st :
  NaN ∈ rows.*2 → range (load rows st) = (NaN, NaN).
Proof.
  intros Hin. rewrite range_load. unfold Math.min, Math.max.
  by rewrite foldl_min2_elem_NaN, foldl_max2_elem_NaN.
Qed.

Lemma load_NaN_row_poisons_range_witness :
  NaN ∈ [("Ohio", lit 1); ("Texas", NaN); ("Utah", lit 3)].*2
  ∧ range (load [("Ohio", lit 1); ("Texas", NaN); ("Utah", lit 3)] initialState)
    = (NaN, NaN).
Proof.
  assert (NaN ∈ [("Ohio", lit 1); ("Texas", NaN); ("Utah", lit 3)].*2) as Hin
    by apply list_elem_of_further, list_elem_of_here.
  split; [exact Hin|]. by apply load_NaN_row_poisons_range.
Defined.

End MetricStoreMore.


(** ** More on the range *)

Section FiniteRange.

Implicit Types (rows : list DataRow) (st : AppState) (vs : list number).

(** One step of [Math.min] returns one of its two arguments, below both
    when neither is NaN. *)
Lemma min2_elem lowest x :
  Math.min2 lowest x = lowest ∨ Math.min2 lowest x = x.
Proof.
  unfold Math.min2.
  destruct lowest as [[]|[]| |[] ? ?], x as [[]|[]| |[] ? ?];
    try (by left); try (by right); by destruct (Number.lt _ _); [right|left].
Qed.

Lemma max2_elem highest x :
  Math.max2 highest x = highest ∨ Math.max2 highest x = x.
Proof.
  unfold Math.max2.
  destruct highest as [[]|[]| |[] ? ?], x as [[]|[]| |[] ? ?];
    try (by left); try (by right); by destruct (Number.lt _ _); [right|left].
Qed.

Lemma min2_le lowest x :
  lowest ≠ NaN → x ≠ NaN →
  Number.le (Math.min2 lowest x) lowest = true
  ∧ Number.le (Math.min2 lowest x) x = true.
Proof.
  intros Hl Hx.
  assert (Math.min2 lowest x = (if Number.lt x lowest then x else lowest)
          ∨ (lowest = S754_zero false ∧ x = S754_zero true
             ∧ Math.min2 lowest x = x)) as [->|(-> & -> & ->)].
  { unfold Math.min2.
    destruct lowest as [[]|[]| |[] ? ?], x as [[]|[]| |[] ? ?];
      try done; try (by left); by right. }
  - destruct (Number.lt x lowest) eqn:Hlt.
    + split; [by apply lt_le|by apply le_refl].
    + split; [by apply le_refl|by apply not_lt_le].
  - done.
Qed.

Lemma max2_le highest x :
  highest ≠ NaN → x ≠ NaN →
  Number.le highest (Math.max2 highest x) = true
  ∧ Number.le x (Math.max2 highest x) = true.
Proof.
  intros Hh Hx.
  assert (Math.max2 highest x = (if Number.lt highest x then x else highest)
          ∨ (highest = S754_zero true ∧ x = S754_zero false
             ∧ Math.max2 highest x = x)) as [->|(-> & -> & ->)].
  { unfold Math.max2.
    destruct highest as [[]|[]| |[] ? ?], x as [[]|[]| |[] ? ?];
      try done; try (by left); by right. }
  - destruct (Number.lt highest x) eqn:Hlt.
    + split; [by apply lt_le|by apply le_refl].
    + split; [by apply le_refl|by apply not_lt_le].
  - done.
Qed.

Lemma foldl_min2_elem vs lowest :
  foldl Math.min2 lowest vs = lowest ∨ foldl Math.min2 lowest vs ∈ vs.
Proof.
  revert lowest. induction vs as [|v vs IH]; intros lowest; [by left|].
  cbn [foldl]. destruct (IH (Math.min2 lowest v)) as [->|Hin].
  - destruct (min2_elem lowest v) as [->| ->]; [by left|right; apply list_elem_of_here].
  - right. by apply list_elem_of_further.
Qed.

Lemma foldl_max2_elem vs highest :
  foldl Math.max2 highest vs = highest ∨ foldl Math.max2 highest vs ∈ vs.
Proof.
  revert highest. induction vs as [|v vs IH]; intros highest; [by left|].
  cbn [foldl]. destruct (IH (Math.max2 highest v)) as [->|Hin].
  - destruct (max2_elem highest v) as [->| ->]; [by left|right; apply list_elem_of_here].
  - right. by apply list_elem_of_further.
Qed.

Lemma foldl_min2_le vs lowest :
  lowest ≠ NaN → Forall (λ v, v ≠ NaN) vs →
  foldl Math.min2 lowest vs ≠ NaN
  ∧ Number.le (foldl Math.min2 lowest vs) lowest = true
  ∧ ∀ v, v ∈ vs → Number.le (foldl Math.min2 lowest vs) v = true.
Proof.
  revert lowest. induction vs as [|w vs IH]; intros lowest Hl Hvs.
  - split_and!; [done|by apply le_refl|]. by intros v ?%elem_of_nil.
  - apply Forall_cons in Hvs as [Hw Hvs]. cbn [foldl].
    destruct (min2_le lowest w Hl Hw) as [Hle1 Hle2].
    assert (Math.min2 lowest w ≠ NaN) as Hne
      by (by destruct (min2_elem lowest w) as [->| ->]).
    destruct (IH _ Hne Hvs) as (Hnan & Hle & Hall).
    split_and!; [done|by eapply le_trans|].
    intros v [->|Hv]%elem_of_cons; [by eapply le_trans|by apply Hall].
Qed.

Lemma foldl_max2_le vs highest :
  highest ≠ NaN → Forall (λ v, v ≠ NaN) vs →
  foldl Math.max2 highest vs ≠ NaN
  ∧ Number.le highest (foldl Math.max2 highest vs) = true
  ∧ ∀ v, v ∈ vs → Number.le v (foldl Math.max2 highest vs) = true.
Proof.
  revert highest. induction vs as [|w vs IH]; intros highest Hh Hvs.
  - split_and!; [done|by apply le_refl|]. by intros v ?%elem_of_nil.
  - apply Forall_cons in Hvs as [Hw Hvs]. cbn [foldl].
    destruct (max2_le highest w Hh Hw) as [Hle1 Hle2].
    assert (Math.max2 highest w ≠ NaN) as Hne
      by (by destruct (max2_elem highest w) as [->| ->]).
    destruct (IH _ Hne Hvs) as (Hnan & Hle & Hall).
    split_and!; [done|by eapply le_trans|].
    intros v [->|Hv]%elem_of_cons; [by eapply le_trans|by apply Hall].
Qed.

(** The first argument always replaces the starting infinity. *)
Lemma min2_Infinity x : Math.min2 Infinity x = x.
Proof. by destruct x as [[]|[]| |[] ? ?]. Qed.

Lemma max2_NegInfinity x : Math.max2 NegInfinity x = x.
Proof. by destruct x as [[]|[]| |[] ? ?]. Qed.

(** Both bounds of a non-empty list are among its values. *)
Lemma Math_min_max_elem vs :
  vs ≠ [] → Math.min vs ∈ vs ∧ Math.max vs ∈ vs.
Proof.
  destruct vs as [|v0 vs]; [done|]. intros _. unfold Math.min, Math.max.
  cbn [foldl]. rewrite min2_Infinity, max2_NegInfinity. split.
  - destruct (foldl_min2_elem vs v0) as [->|Hin];
      [apply list_elem_of_here|by apply list_elem_of_further].
  - destruct (foldl_max2_elem vs v0) as [->|Hin];
      [apply list_elem_of_here|by apply list_elem_of_further].
Qed.

(** Without NaN among them, every value lies between the bounds. *)
Lemma Math_min_max_le vs v :
  Forall (λ v, v ≠ NaN) vs → v ∈ vs →
  Number.le (Math.min vs) v = true ∧ Number.le v (Math.max vs) = true.
Proof.
  destruct vs as [|v0 vs]; [by intros _ ?%elem_of_nil|].
  intros [Hv0 Hvs]%Forall_cons Hv. unfold Math.min, Math.max.
  cbn [foldl]. rewrite min2_Infinity, max2_NegInfinity.
  destruct (foldl_min2_le vs v0 Hv0 Hvs) as (_ & Hmin0 & Hmin).
  destruct (foldl_max2_le vs v0 Hv0 Hvs) as (_ & Hmax0 & Hmax).
  apply elem_of_cons in Hv as [->|Hv]; [done|]. split; [by apply Hmin|by apply Hmax].
Qed.

Lemma finite_not_NaN (v : number) : Number.is_finite v = true → v ≠ NaN.
Proof. by destruct v. Qed.

Lemma get_load_elem_of rows st region v :
  get (load rows st) region = NumberValue v → v ∈ rows.*2.
Proof.
  rewrite get_load. destruct (last _) as [row|] eqn:Hlast.
  - intros [= <-]. apply last_Some_elem_of, list_elem_of_filter in Hlast as [_ Hrow].
    by apply list_elem_of_fmap_2.
  - by case_bool_decide.
Qed.

(** After a load of at least one row, all values finite: the range is a
    pair of finite numbers with [min <= max], each of them the value of
    some row, and every number the table holds lies between them. *)
Theorem load_finite_range rows st :
  rows ≠ [] → finiteValues rows →
  ∃ a b, range (load rows st) = (a, b)
         ∧ Number.is_finite a = true ∧ Number.is_finite b = true
         ∧ Number.le a b = true ∧ a ∈ rows.*2 ∧ b ∈ rows.*2
         ∧ ∀ region v, get (load rows st) region = NumberValue v →
                       Number.is_finite v = true
                       ∧ Number.le a v = true ∧ Number.le v b = true.
Proof.
  intros Hne Hfin. rewrite range_load.
  assert (Forall (λ v, Number.is_finite v = true) rows.*2) as Hfin'
    by (by apply Forall_fmap).
  assert (Forall (λ v, v ≠ NaN) rows.*2) as Hnan
    by (eapply Forall_impl; [done|]; apply finite_not_NaN).
  destruct (Math_min_max_elem rows.*2) as [Ha Hb]; [by destruct rows|].
  rewrite Forall_forall in Hfin'.
  eexists _, _. split_and!; [done|by apply Hfin'..| |done|done|].
  - exact (proj2 (Math_min_max_le _ _ Hnan Ha)).
  - intros region v Hv%get_load_elem_of. split; [by apply Hfin'|].
    by apply Math_min_max_le.
Qed.

Lemma load_finite_range_witness :
  ([("Texas", lit 500); ("Ohio", lit 100)] ≠ []
   ∧ finiteValues [("Texas", lit 500); ("Ohio", lit 100)])
  ∧ ∃ a b,
      range (load [("Texas", lit 500); ("Ohio", lit 100)] initialState) = (a, b)
      ∧ Number.le a b = true.
Proof.
  assert ([("Texas", lit 500); ("Ohio", lit 100)] ≠ @nil DataRow) as Hne
    by discriminate.
  assert (finiteValues [("Texas", lit 500); ("Ohio", lit 100)]) as Hfin
    by (repeat constructor).
  split; [by split|].
  destruct (load_finite_range _ initialState Hne Hfin)
    as (a & b & Hrange & _ & _ & Hab & _).
  by exists a, b.
Defined.

(** With distinct region names, none of them [__proto__], both bounds
    are values that the table still holds. *)
Theorem load_distinct_names_bounds_in_table rows st :
  rows ≠ [] → NoDup rows.*1 → "__proto__" ∉ rows.*1 →
  let st' := load rows st in
  (∃ region, get st' region = NumberValue (minSales st'))
  ∧ (∃ region, get st' region = NumberValue (maxSales st')).
Proof.
  intros Hne Hnd Hproto. cbn zeta.
  assert (∀ v, v ∈ rows.*2 →
            ∃ region, get (load rows st) region = NumberValue v) as Hget.
  { intros v ([k v'] & -> & Hin)%list_elem_of_fmap. exists k.
    rewrite get_load, (filter_key_NoDup _ k v'); [done..| |done].
    intros ->. apply Hproto. by apply (list_elem_of_fmap_2 fst) in Hin. }
  pose proof (range_load rows st) as Hrange. injection Hrange as -> ->.
  destruct (Math_min_max_elem rows.*2) as [Ha Hb]; [by destruct rows|].
  split; by apply Hget.
Qed.

Lemma load_distinct_names_bounds_in_table_witness :
  let rows : list DataRow := [("Texas", lit 500); ("Ohio", lit 100)] in
  (rows ≠ [] ∧ NoDup rows.*1 ∧ ("__proto__" ∉ rows.*1))
  ∧ ∃ region, get (load rows initialState) region = NumberValue (lit 100).
Proof.
  cbn zeta.
  assert ([("Texas", lit 500); ("Ohio", lit 100)] ≠ @nil DataRow) as Hne
    by discriminate.
  assert (NoDup [("Texas", lit 500); ("Ohio", lit 100)].*1) as Hnd.
  { apply NoDup_cons. split; [|apply NoDup_singleton].
    intros Hin%list_elem_of_singleton. discriminate. }
  assert ("__proto__" ∉ [("Texas", lit 500); ("Ohio", lit 100)].*1) as Hproto
    by (by apply (bool_decide_unpack _)).
  split; [by split_and!|].
  exact (proj1 (load_distinct_names_bounds_in_table _ initialState Hne Hnd Hproto)).
Defined.

(** With a repeated name a bound can be a value the table no longer
    holds: here the minimum 10 was overwritten by 20. *)
Lemma load_repeated_name_bound_not_in_table :
  let st' := load [("A", lit 10); ("B", lit 30); ("A", lit 20)] initialState in
  minSales st' = lit 10
  ∧ ∀ region, get st' region ≠ NumberValue (lit 10).
Proof.
  cbn zeta. split; [reflexivity|]. intros region.
  destruct (decide (region = "A")) as [->|HA]; [by vm_compute|].
  destruct (decide (region = "B")) as [->|HB]; [by vm_compute|].
  rewrite get_load, filter_key_absent; [by case_bool_decide|].
  cbn. rewrite !not_elem_of_cons. split_and!; [done..|apply not_elem_of_nil].
Qed.

End FiniteRange.

(** ** More on the style of a feature *)

Section RegionStylerMore.

Implicit Types (st : AppState) (f : Feature) (g : option Feature).

Lemma optFeatureName_Some f : optFeatureName (Some f) = featureName f.
Proof. done. Qed.

(** No fill other than the one of the selection is the selected colour. *)
Lemma unselected_fill_not_gray st g :
  match stateSales st !! optFeatureName g with
  | Some v =>
      if Number.truthy v
      then interpolateColor v (minSales st) (maxSales st)
      else Literal "#3388ff"
  | None =>
      if bool_decide (optFeatureName g ∈ objectPrototypeKeys)
      then RgbTemplate NaN NaN NaN
      else Literal "#3388ff"
  end ≠ Literal "#cccccc".
Proof.
  destruct (stateSales st !! optFeatureName g) as [v|].
  - by destruct (Number.truthy v).
  - by case_bool_decide.
Qed.

(** A feature is drawn in the selected colour only if its name is in the
    selection: neither the default colour nor any colour of the scale is
    the selected one. *)
Theorem stateStyle_gray_iff_selected st g :
  fillColor (stateStyle st g) = Literal "#cccccc"
  ↔ optFeatureName g ∈ selectedStates st.
Proof.
  rewrite fillColor_stateStyle. case_bool_decide as Hsel; [done|].
  split; [|done]. intros Hgray. by apply unselected_fill_not_gray in Hgray.
Qed.

(** A click restyles the features that carry the clicked name and no
    other: the clicked feature turns to the selected colour when it was
    not selected and leaves it when it was. *)
Theorem click_restyles_only_clicked st f :
  (∀ g, optFeatureName g ≠ featureName f →
        stateStyle (click f st) g = stateStyle st g)
  ∧ (featureName f ∉ selectedStates st →
     fillColor (stateStyle (click f st) (Some f)) = Literal "#cccccc")
  ∧ (featureName f ∈ selectedStates st →
     fillColor (stateStyle (click f st) (Some f)) ≠ Literal "#cccccc").
Proof.
  split_and!.
  - intros g Hg. unfold stateStyle.
    cbn [click selectedStates stateSales minSales maxSales].
    assert (optFeatureName g ∈ toggle (featureName f) (selectedStates st)
            ↔ optFeatureName g ∈ selectedStates st) as Hiff
      by (rewrite elem_of_toggle; intuition congruence).
    by rewrite (bool_decide_ext _ _ Hiff).
  - intros Hf. rewrite fillColor_stateStyle, optFeatureName_Some.
    cbn [click selectedStates]. rewrite bool_decide_eq_true_2; [done|].
    rewrite elem_of_toggle. by right.
  - intros Hf. rewrite fillColor_stateStyle.
    cbn [click selectedStates stateSales minSales maxSales].
    rewrite bool_decide_eq_false_2.
    + apply (unselected_fill_not_gray st (Some f)).
    + rewrite optFeatureName_Some, elem_of_toggle. intuition congruence.
Qed.

Lemma interpolateColor_same (q : number) :
  Number.truthy q = true →
  interpolateColor q q q = RgbTemplate NaN NaN NaN.
Proof.
  destruct q as [s|s| |s m e]; try discriminate; intros _.
  - by destruct s.
  - unfold interpolateColor. by rewrite sub_self_finite.
Qed.

Lemma lookup_load_proto (rows : list DataRow) st :
  stateSales (load rows st) !! "__proto__" = None.
Proof.
  rewrite load_unfold. cbn [stateSales].
  by rewrite lookup_foldl_insertRow, filter_key_proto, lookup_empty.
Qed.

Lemma get_NumberValue st region v :
  get st region = NumberValue v → stateSales st !! region = Some v.
Proof.
  unfold get, getProp. destruct (stateSales st !! region); [by intros [= ->]|].
  by case_bool_decide.
Qed.

(** When every row carries the same value, not zero and not NaN, the two
    bounds are equal and every region named by a row that is not selected
    is filled with rgb(NaN,NaN,NaN). A table of a single row is the
    simplest case. *)
Theorem uniform_rows_fill_NaN (rows : list DataRow) (q : number) st g :
  (∀ v, v ∈ rows.*2 → v = q) → Number.truthy q = true →
  optFeatureName g ∈ rows.*1 →
  optFeatureName g ∉ selectedStates st →
  fillColor (stateStyle (load rows st) g) = RgbTemplate NaN NaN NaN.
Proof.
  intros Hall Hq Hin Hsel.
  assert (optFeatureName g ∉ selectedStates (load rows st)) as Hsel'
    by (by rewrite load_unfold).
  destruct (decide (optFeatureName g = "__proto__")) as [Hproto|Hproto].
  - apply stateStyle_prototype_member; [done| |].
    + rewrite Hproto. apply lookup_load_proto.
    + rewrite Hproto. by apply (bool_decide_unpack _).
  - destruct (get_load_named rows st _ Hin Hproto) as [v Hv].
    pose proof (get_load_elem_of _ _ _ _ Hv) as Hmem.
    apply Hall in Hmem as ->. apply get_NumberValue in Hv.
    rewrite (stateStyle_truthy_value _ _ q Hsel' Hv Hq).
    destruct (Math_min_max_elem rows.*2) as [Ha Hb].
    { destruct rows; [by apply elem_of_nil in Hin|done]. }
    apply Hall in Ha, Hb. rewrite load_unfold. cbn [minSales maxSales].
    rewrite Ha, Hb. by apply interpolateColor_same.
Qed.

Lemma uniform_rows_fill_NaN_witness :
  let rows : list DataRow := [("Texas", lit 40); ("Ohio", lit 40)] in
  ((∀ v, v ∈ rows.*2 → v = lit 40) ∧ Number.truthy (lit 40) = true)
  ∧ fillColor (stateStyle (load rows initialState) (Some (named "Ohio")))
    = RgbTemplate NaN NaN NaN.
Proof.
  cbn zeta.
  assert (∀ v, v ∈ [("Texas", lit 40); ("Ohio", lit 40)].*2 → v = lit 40) as Hall.
  { intros v Hv. cbn in Hv. apply elem_of_cons in Hv as [->|Hv]; [reflexivity|].
    by apply list_elem_of_singleton in Hv as ->. }
  assert (Number.truthy (lit 40) = true) as Hq by reflexivity.
  split; [by split|].
  apply (uniform_rows_fill_NaN _ (lit 40) initialState _ Hall Hq).
  - cbn. apply list_elem_of_further, list_elem_of_here.
  - apply not_elem_of_nil.
Defined.

End RegionStylerMore.
(** ** The liveboard handlers *)

Section Liveboard.

Implicit Types (st : AppState) (p : Panel) (embed : Embed) (embedRef : option Embed).

Lemma hideLiveboard_Some_Returns embed st p :
  embed (storeStateFilter []) = Returns →
  hideLiveboard (Some embed) st p
  = (Returns,
     {| selectedStates := []; stateSales := stateSales st;
        minSales := minSales st; maxSales := maxSales st |},
     {| zIndex := zIndex (setZIndex "0" p);
        triggered := triggered p ++ [storeStateFilter []] |}).
Proof. intros He. unfold hideLiveboard, callTrigger. by rewrite He. Qed.

(** When the call on the embed returns, 'Close' empties the selection
    whatever it held: 'Explore More' is no longer rendered, no feature is
    drawn selected, the table and the range are kept, and the one filter
    sent carries an empty list of values. *)
Theorem hideLiveboard_clears_selection embed st p :
  embed (storeStateFilter []) = Returns →
  ∃ st' p', hideLiveboard (Some embed) st p = (Returns, st', p')
    ∧ selectedStates st' = []
    ∧ exploreVisible st' = false
    ∧ (∀ g, fillColor (stateStyle st' g) ≠ Literal "#cccccc")
    ∧ stateSales st' = stateSales st ∧ range st' = range st
    ∧ triggered p' = triggered p ++ [storeStateFilter []].
Proof.
  intros He. rewrite (hideLiveboard_Some_Returns _ _ _ He).
  eexists _, _. split_and!; [reflexivity|done..| |done|done|done].
  intros g. rewrite fillColor_stateStyle. cbn [selectedStates stateSales].
  rewrite bool_decide_eq_false_2 by apply not_elem_of_nil.
  exact (unselected_fill_not_gray
    {| selectedStates := []; stateSales := stateSales st;
       minSales := minSales st; maxSales := maxSales st |} g).
Qed.

Lemma hideLiveboard_clears_selection_witness :
  let embed : Embed := λ _, Returns in
  let st := {| selectedStates := ["Texas"; "Ohio"]; stateSales := ∅;
               minSales := lit 0; maxSales := lit 0 |} in
  embed (storeStateFilter []) = Returns
  ∧ ∃ st' p', hideLiveboard (Some embed) st renderedPanel = (Returns, st', p')
      ∧ selectedStates st' = [].
Proof.
  cbn zeta.
  assert ((λ _ : TriggerCall, Returns) (storeStateFilter []) = Returns) as He
    by reflexivity.
  split; [exact He|].
  destruct (hideLiveboard_clears_selection (λ _, Returns)
    {| selectedStates := ["Texas"; "Ohio"]; stateSales := ∅;
       minSales := lit 0; maxSales := lit 0 |} renderedPanel He)
    as (st' & p' & Hhide & Hsel & _).
  by exists st', p'.
Defined.

(** When the call throws, because [embedRef.current] is null or because
    the embed's [trigger] throws, 'Close' has already lowered the panel
    but leaves every state cell, the selection included, as it was. *)
Theorem hideLiveboard_throw_keeps_selection embedRef st p :
  (∀ embed, embedRef = Some embed → embed (storeStateFilter []) = Throws) →
  ∃ p', hideLiveboard embedRef st p = (Throws, st, p')
        ∧ zIndex p' = zIndex (setZIndex "0" p).
Proof.
  intros He. unfold hideLiveboard, callTrigger.
  destruct embedRef as [embed|].
  - rewrite (He embed eq_refl). by eexists.
  - by eexists.
Qed.

Lemma hideLiveboard_throw_keeps_selection_witness :
  let st := {| selectedStates := ["Texas"]; stateSales := ∅;
               minSales := lit 0; maxSales := lit 0 |} in
  (∀ embed : Embed, None = Some embed → embed (storeStateFilter []) = Throws)
  ∧ ∃ p', hideLiveboard None st renderedPanel = (Throws, st, p')
          ∧ zIndex p' = Some "0".
Proof.
  cbn zeta.
  assert (∀ embed : Embed, None = Some embed → embed (storeStateFilter []) = Throws)
    as He by (intros embed Heq; discriminate Heq).
  split; [exact He|].
  exact (hideLiveboard_throw_keeps_selection None _ renderedPanel He).
Defined.

(** 'Explore More' never changes a state cell, whether the call returns
    or throws; when the embed is there it sends one filter whose values
    are the selection in its current order. *)
Theorem showLiveboard_sends_selection embedRef st p :
  ∃ completion p', showLiveboard embedRef st p = (completion, st, p')
    ∧ zIndex p' = zIndex (setZIndex "99999" p)
    ∧ match embedRef with
      | Some embed =>
          completion = embed (storeStateFilter (selectedStates st))
          ∧ triggered p' = triggered p ++ [storeStateFilter (selectedStates st)]
      | None => completion = Throws ∧ triggered p' = triggered p
      end.
Proof.
  unfold showLiveboard, callTrigger. destruct embedRef as [embed|];
    eexists _, _; split_and!; reflexivity.
Qed.

(** After any run of clicks from the initial state, the filter that
    'Explore More' sends names no state twice. *)
Theorem showLiveboard_filter_NoDup embed (features : list Feature) p :
  ∃ completion st' p' states,
    showLiveboard (Some embed) (clicks features initialState) p = (completion, st', p')
    ∧ triggered p' = triggered p ++ [storeStateFilter states]
    ∧ NoDup states.
Proof.
  unfold showLiveboard, callTrigger. eexists _, _, _, _.
  split_and!; [reflexivity..|].
  rewrite selectedStates_clicks. apply toggles_NoDup, NoDup_nil_2.
Qed.

End Liveboard.

(** ** The host of the REST client *)

Section Host.

Implicit Types (s base host pattern : string).

Lemma prefix_hash_absent pattern c s :
  c ≠ "#"%char → String.prefix (String "#" pattern) (String c s) = false.
Proof.
  intros Hc.
  change (String.prefix (String "#" pattern) (String c s))
    with (if ascii_dec "#" c then String.prefix pattern s else false).
  destruct (ascii_dec "#" c) as [Heq|]; [|done]. by destruct Hc.
Qed.

Lemma hashFree_cons c s :
  hashFree (String c s) = true ↔ c ≠ "#"%char ∧ hashFree s = true.
Proof.
  cbn. rewrite andb_true_iff, negb_true_iff, Ascii.eqb_neq. done.
Qed.

(** A pattern that starts with [#] is first looked for behind a prefix
    without [#]. *)
Lemma replace_hashFree_app pattern base s :
  hashFree base = true →
  replace (String "#" pattern) "" (base +:+ s)
  = base +:+ replace (String "#" pattern) "" s.
Proof.
  induction base as [|c base IH]; [done|].
  intros [Hc Hbase]%hashFree_cons.
  change (String c base +:+ s) with (String c (base +:+ s)).
  cbn [replace]. rewrite prefix_hash_absent by done.
  by rewrite IH.
Qed.

Lemma app_empty_r s : s +:+ "" = s.
Proof.
  induction s as [|c s IH]; [done|].
  change (String c s +:+ "") with (String c (s +:+ "")). by rewrite IH.
Qed.

Lemma replace_hashFree pattern s :
  hashFree s = true → replace (String "#" pattern) "" s = s.
Proof.
  intros Hs. rewrite <- (app_empty_r s) at 1.
  rewrite replace_hashFree_app by done.
  change (replace (String "#" pattern) "" "") with "". apply app_empty_r.
Qed.

Lemma endsWith_app s suffix : endsWith (s +:+ suffix) suffix = true.
Proof.
  induction s as [|c s IH].
  - change ("" +:+ suffix) with suffix.
    destruct suffix; cbn [endsWith]; by rewrite String.eqb_refl.
  - change (String c s +:+ suffix) with (String c (s +:+ suffix)).
    cbn [endsWith]. rewrite IH. by destruct (String.eqb _ _).
Qed.

Lemma sliceButLast_snoc s c : sliceButLast (s +:+ String c "") = s.
Proof.
  induction s as [|d s IH]; [done|].
  change (String d s +:+ String c "") with (String d (s +:+ String c "")).
  cbn [sliceButLast]. rewrite IH. by destruct s.
Qed.

Lemma hashFree_app s1 s2 :
  hashFree (s1 +:+ s2) = hashFree s1 && hashFree s2.
Proof.
  induction s1 as [|c s1 IH]; [done|].
  change (String c s1 +:+ s2) with (String c (s1 +:+ s2)).
  cbn [hashFree]. by rewrite IH, andb_assoc.
Qed.

Lemma cleanHost_slash base :
  hashFree base = true → cleanHost (base +:+ "/") = base.
Proof.
  intros Hbase. unfold cleanHost.
  assert (hashFree (base +:+ "/") = true) as Hfree
    by (by rewrite hashFree_app, Hbase).
  rewrite (replace_hashFree "/" _ Hfree), (replace_hashFree "" _ Hfree).
  by rewrite endsWith_app, sliceButLast_snoc.
Qed.

(** A host without [#] loses one trailing slash, and the hash-routing
    endings [/#] and [/#/] altogether; only one slash is removed, so a
    host that ends in two slashes still ends in one. *)
Theorem cleanHost_strips_ending base :
  hashFree base = true →
  cleanHost (base +:+ "/") = base
  ∧ cleanHost (base +:+ "/#") = base
  ∧ cleanHost (base +:+ "/#/") = base
  ∧ cleanHost (base +:+ "//") = base +:+ "/".
Proof.
  intros Hbase. split_and!.
  - by apply cleanHost_slash.
  - unfold cleanHost. rewrite (replace_hashFree_app "/" base) by done.
    change (replace "#/" "" "/#") with "/#".
    rewrite (replace_hashFree_app "" base) by done.
    change (replace "#" "" "/#") with "/".
    by rewrite endsWith_app, sliceButLast_snoc.
  - unfold cleanHost. rewrite (replace_hashFree_app "/" base) by done.
    change (replace "#/" "" "/#/") with "/".
    rewrite (replace_hashFree_app "" base) by done.
    change (replace "#" "" "/") with "/".
    by rewrite endsWith_app, sliceButLast_snoc.
  - assert (base +:+ "//" = (base +:+ "/") +:+ "/") as ->.
    { clear Hbase. induction base as [|c base IH]; [done|].
      change (String c base +:+ "//") with (String c (base +:+ "//")).
      by rewrite IH. }
    apply cleanHost_slash. by rewrite hashFree_app, Hbase.
Qed.

Lemma cleanHost_strips_ending_witness :
  hashFree "https://se-thoughtspot-cloud.thoughtspot.cloud" = true
  ∧ baseServer (createClientWithoutAuth TS_URL)
    = "https://se-thoughtspot-cloud.thoughtspot.cloud"
  ∧ cleanHost "https://se-thoughtspot-cloud.thoughtspot.cloud/#/"
    = "https://se-thoughtspot-cloud.thoughtspot.cloud".
Proof.
  assert (hashFree "https://se-thoughtspot-cloud.thoughtspot.cloud" = true)
    as Hbase by reflexivity.
  destruct (cleanHost_strips_ending _ Hbase) as (Hslash & _ & Hroute & _).
  split_and!; [exact Hbase|exact Hslash|exact Hroute].
Defined.

(** A host without [#] that does not end in a slash is used as it is. *)
Theorem cleanHost_unchanged host :
  hashFree host = true → endsWith host "/" = false →
  cleanHost host = host.
Proof.
  intros Hhost Hend. unfold cleanHost.
  rewrite (replace_hashFree "/" _ Hhost), (replace_hashFree "" _ Hhost).
  by rewrite Hend.
Qed.

Lemma cleanHost_unchanged_witness :
  (hashFree "https://host.example" = true
   ∧ endsWith "https://host.example" "/" = false)
  ∧ cleanHost "https://host.example" = "https://host.example".
Proof.
  assert (hashFree "https://host.example" = true) as Hhost by reflexivity.
  assert (endsWith "https://host.example" "/" = false) as Hend by reflexivity.
  split; [by split|]. exact (cleanHost_unchanged _ Hhost Hend).
Defined.

Lemma sliceFrom_sublist n s :
  String.list_ascii_of_string (sliceFrom n s)
    `sublist_of` String.list_ascii_of_string s.
Proof.
  revert s. induction n as [|n IH]; intros s; [by destruct s|].
  destruct s as [|c s]; [done|]. cbn. by apply sublist_cons.
Qed.

Lemma replace_empty_sublist pattern s :
  String.list_ascii_of_string (replace pattern "" s)
    `sublist_of` String.list_ascii_of_string s.
Proof.
  induction s as [|c s IH]; cbn [replace].
  - destruct (String.prefix pattern ""); [apply sliceFrom_sublist|done].
  - destruct (String.prefix pattern (String c s)); [apply sliceFrom_sublist|].
    cbn. by apply sublist_skip.
Qed.

Lemma sliceButLast_sublist s :
  String.list_ascii_of_string (sliceButLast s)
    `sublist_of` String.list_ascii_of_string s.
Proof.
  induction s as [|c s IH]; [done|]. destruct s as [|d s].
  - cbn. apply sublist_nil_l.
  - change (sliceButLast (String c (String d s)))
      with (String c (sliceButLast (String d s))).
    cbn [String.list_ascii_of_string]. by apply sublist_skip.
Qed.

(** The cleaning only deletes characters: what reaches the client is the
    given host with some characters left out, in the same order, and so
    never longer. *)
Theorem cleanHost_only_deletes host :
  String.list_ascii_of_string (cleanHost host)
    `sublist_of` String.list_ascii_of_string host.
Proof.
  unfold cleanHost.
  assert (String.list_ascii_of_string (replace "#" "" (replace "#/" "" host))
            `sublist_of` String.list_ascii_of_string host) as Hsub.
  { etrans; apply replace_empty_sublist. }
  destruct (endsWith _ "/"); [|done].
  etrans; [apply sliceButLast_sublist|done].
Qed.

End Host.
